(** * Radix calculator: leaf-spine radix and nodes-per-leaf report

    Shallow embedding of [utils/radix_calc/radix_calculator.py].

    Python integers are unbounded, so they are modelled by [Z]; the node
    formula is also given on [int] and [float] arguments, in [PyNum].  An
    uncaught Python exception aborts the run; fallible code therefore
    returns a [result].  The two catalogs are dict literals, iterated
    with [.items()], which yields the entries in declaration order: they
    are association lists.  The accumulated DataFrame is the list of its
    rows, in index order. *)

From Stdlib Require Import ZArith List String Ascii Lia QArith Qround.
From Stdlib Require Import SpecFloat.
Import ListNotations.
Open Scope string_scope.
Open Scope list_scope.
Open Scope Z_scope.

(** ** Exceptions and the error monad *)

Inductive exn : Type :=
| ZeroDivisionError.

Inductive result (A : Type) : Type :=
| Ok (a : A)
| Raise (e : exn).
Arguments Ok {A} a.
Arguments Raise {A} e.

Definition bind {A B : Type} (c : result A) (k : A -> result B) : result B :=
  match c with
  | Ok a => k a
  | Raise e => Raise e
  end.

Notation "x <- c ;; k" := (bind c (fun x => k))
  (at level 61, c at next level, right associativity).

(** A [for] statement whose body updates the loop state [S]; the first
    exception raised by the body leaves the loop. *)
Fixpoint for_each {A S : Type} (xs : list A) (body : A -> S -> result S)
  (s : S) : result S :=
  match xs with
  | [] => Ok s
  | x :: xs' => s' <- body x s ;; for_each xs' body s'
  end.

(** ** Integer arithmetic of the language *)

(** [a // b] on integers.  The quotient is first truncated toward zero
    and then moved down by one when the remainder is non-zero and its
    sign differs from the divisor's; a zero divisor raises. *)
Definition floordiv (a b : Z) : result Z :=
  if b =? 0 then Raise ZeroDivisionError
  else
    let q := Z.quot a b in
    let r := Z.rem a b in
    if negb (r =? 0) && negb (Bool.eqb (r <? 0) (b <? 0))
    then Ok (q - 1)
    else Ok q.

(** [int(x)] applied to an integer returns it unchanged. *)
Definition int (x : Z) : Z := x.

(** ** Formulas *)

Definition calculate_radix (spine_ports leaf_uplink_ports : Z) : result Z :=
  floordiv spine_ports leaf_uplink_ports.

Definition calculate_nodes_per_leaf
  (leaf_bandwidth node_bandwidth uplink_bandwidth : Z) : result Z :=
  let available_bandwidth := leaf_bandwidth - uplink_bandwidth in
  q <- floordiv available_bandwidth node_bandwidth ;;
  Ok (int q).

(** ** Catalogs *)

Module SpineConfig.
Record config : Type := Build
  { line_cards : Z; ports_per_card : Z; port_speed : Z }.
End SpineConfig.

Module LeafConfig.
Record config : Type := Build
  { ports : Z; port_speed : Z; bandwidth : Z }.
End LeafConfig.

Definition spine_configs : list (string * SpineConfig.config) :=
  [ ("7804", SpineConfig.Build 4 36 800);
    ("7808", SpineConfig.Build 8 36 800);
    ("7812", SpineConfig.Build 12 36 800);
    ("7816", SpineConfig.Build 16 36 800) ].

Definition leaf_configs : list (string * LeafConfig.config) :=
  [ ("7060X5", LeafConfig.Build 64 400 25600);
    ("7060X6", LeafConfig.Build 64 800 51200) ].

Definition node_bandwidth : Z := 200.

Definition oversubscriptions : list (string * Z) :=
  [ ("1:1", 1); ("2:1", 2); ("4:1", 4) ].

(** ** Result rows *)

(** One row of [radix_df]; the fields are its columns, in column order. *)
Record Row : Type := mkRow
  { Leaf : string;
    Spine : string;
    Uplinks : Z;
    Workload_Ports : Z;
    Oversubscription : string;
    Max_Radix : Z;
    Nodes_per_Leaf : Z }.

(** ** The enumeration loop of [main] *)

Section Enumerator.

(** The catalogs and the two scalar constants of [main]. *)
Variable spines : list (string * SpineConfig.config).
Variable leaves : list (string * LeafConfig.config).
Variable ratios : list (string * Z).
Variable leaf_uplink_ports : Z.
Variable node_bw : Z.

(** The values computed by one pass of the innermost loop body, before
    the row is built. *)
Definition uplinks_of (uplink_divisor : Z) : result Z :=
  floordiv leaf_uplink_ports uplink_divisor.

Definition uplink_bandwidth_of (spine_config : SpineConfig.config) (uplinks : Z) : Z :=
  uplinks * SpineConfig.port_speed spine_config.

Definition spine_ports_of (spine_config : SpineConfig.config) : Z :=
  SpineConfig.line_cards spine_config * SpineConfig.ports_per_card spine_config.

(** Innermost loop body: computes one row. *)
Definition make_row (spine : string * SpineConfig.config) (spine_ports : Z)
  (leaf : string * LeafConfig.config) (ratio : string * Z) : result Row :=
  let '(spine_model, spine_config) := spine in
  let '(leaf_model, leaf_config) := leaf in
  let '(oversubscription, uplink_divisor) := ratio in
  uplinks <- uplinks_of uplink_divisor ;;
  max_radix <- calculate_radix spine_ports uplinks ;;
  let uplink_bandwidth := uplink_bandwidth_of spine_config uplinks in
  nodes_per_leaf <-
    calculate_nodes_per_leaf (LeafConfig.bandwidth leaf_config) node_bw
      uplink_bandwidth ;;
  Ok {| Leaf := leaf_model;
        Spine := spine_model;
        Uplinks := uplinks;
        Workload_Ports := LeafConfig.ports leaf_config - uplinks;
        Oversubscription := oversubscription;
        Max_Radix := max_radix;
        Nodes_per_Leaf := nodes_per_leaf |}.

(** [radix_df = pd.concat([radix_df, DataFrame([row])], ignore_index=True)]. *)
Definition ratio_body (spine : string * SpineConfig.config) (spine_ports : Z)
  (leaf : string * LeafConfig.config) (ratio : string * Z)
  (radix_df : list Row) : result (list Row) :=
  row <- make_row spine spine_ports leaf ratio ;;
  Ok (radix_df ++ [row]).

Definition leaf_body (spine : string * SpineConfig.config) (spine_ports : Z)
  (leaf : string * LeafConfig.config) (radix_df : list Row) : result (list Row) :=
  for_each ratios (ratio_body spine spine_ports leaf) radix_df.

Definition spine_body (spine : string * SpineConfig.config)
  (radix_df : list Row) : result (list Row) :=
  let spine_ports := spine_ports_of (snd spine) in
  for_each leaves (leaf_body spine spine_ports) radix_df.

Definition enumerate (radix_df : list Row) : result (list Row) :=
  for_each spines spine_body radix_df.

End Enumerator.

(** The loop of [main] on its own catalogs, started on the empty frame. *)
Definition main_rows : result (list Row) :=
  enumerate spine_configs leaf_configs oversubscriptions 8 node_bandwidth [].

(** ** Rendering and the whole of [main] *)

Section Report.

(** The two library renderers [main] calls on the finished frame:
    [tabulate(radix_df, headers='keys', tablefmt="fancy_grid",
    showindex=False)] and the text of a frame as [print] shows it. *)
Variable tabulate : list Row -> string.
Variable frame_text : list Row -> string.

(** [radix_df.head()]: the first five rows. *)
Definition head (radix_df : list Row) : list Row := firstn 5 radix_df.

(** [print(s)] appends one item to what standard output holds. *)
Definition print (s : string) (stdout : list string) : list string :=
  stdout ++ [s].

Definition nl : string := String (ascii_of_nat 10) EmptyString.

(** The program run on catalogs [spines], [leaves], [ratios] and the two
    constants, from a standard output that already holds [stdout].  An
    exception in the loop leaves before anything is printed. *)
Definition report (spines : list (string * SpineConfig.config))
  (leaves : list (string * LeafConfig.config)) (ratios : list (string * Z))
  (leaf_uplink_ports node_bw : Z) (stdout : list string)
  : list string * result (list Row) :=
  match enumerate spines leaves ratios leaf_uplink_ports node_bw [] with
  | Raise e => (stdout, Raise e)
  | Ok radix_df =>
      let stdout := print (tabulate radix_df) stdout in
      let stdout := print (nl ++ "Considerations:")%string stdout in
      let stdout :=
        print "  - Adjust `leaf_uplink_ports` based on your design and oversubscription requirements."
          stdout in
      let stdout :=
        print "  - Ensure the spine switch has enough bandwidth for the aggregated traffic."
          stdout in
      let stdout := print (nl ++ "Radix DataFrame:")%string stdout in
      let stdout := print (frame_text (head radix_df)) stdout in
      (stdout, Ok radix_df)
  end.

Definition main (stdout : list string) : list string * result (list Row) :=
  report spine_configs leaf_configs oversubscriptions 8 node_bandwidth stdout.

End Report.

(** ** The node formula on integer and float arguments

    [calculate_nodes_per_leaf] accepts any two kinds of built-in real
    number: [int] and [float].  With two integers [-] and [//] are the
    integer operations above.  As soon as one operand is a float the
    other is converted to a float and the operation is done on IEEE 754
    binary64 values, modelled by [spec_float] with a 53-bit mantissa;
    [int(...)] then truncates the float quotient to an integer. *)

Module PyNum.

Inductive error : Type :=
| ZeroDivisionError
| ValueError
| OverflowError.

Inductive outcome (A : Type) : Type :=
| Returns (a : A)
| Raises (e : error).
Arguments Returns {A} a.
Arguments Raises {A} e.

Definition then_ {A B : Type} (c : outcome A) (k : A -> outcome B)
  : outcome B :=
  match c with
  | Returns a => k a
  | Raises e => Raises e
  end.

Notation "x <~ c ;; k" := (then_ c (fun x => k))
  (at level 61, c at next level, right associativity).

Inductive number : Type :=
| PyInt (z : Z)
| PyFloat (x : spec_float).

Definition prec : Z := 53.
Definition emax : Z := 1024.

Definition fsub : spec_float -> spec_float -> spec_float := SFsub prec emax.
Definition fadd : spec_float -> spec_float -> spec_float := SFadd prec emax.
Definition fdiv : spec_float -> spec_float -> spec_float := SFdiv prec emax.

(** The float nearest to [m * 2 ^ e], ties to even; [of_Z z] is the
    float nearest to the integer [z]. *)
Definition dyadic (m e : Z) : spec_float := binary_normalize prec emax m e false.
Definition of_Z (z : Z) : spec_float := dyadic z 0.

(** [x != 0.0] and [x < 0] of C: a NaN is different from zero and is
    not below it; both zeros are zero. *)
Definition nonzero (x : spec_float) : bool := negb (SFeqb x (S754_zero false)).
Definition negative (x : spec_float) : bool := SFltb x (S754_zero false).

Definition sign_bit (x : spec_float) : bool :=
  match x with
  | S754_zero s | S754_infinity s | S754_finite s _ _ => s
  | S754_nan => false
  end.

(** [fmod(x, y)] of C: the exact remainder of the division truncated
    toward zero, which carries the sign of [x]; NaN when [x] is infinite
    or [y] is zero, [x] itself when [y] is infinite. *)
Definition fmod (x y : spec_float) : spec_float :=
  match x, y with
  | S754_nan, _ | _, S754_nan => S754_nan
  | S754_infinity _, _ => S754_nan
  | _, S754_zero _ => S754_nan
  | S754_zero _, _ => x
  | S754_finite _ _ _, S754_infinity _ => x
  | S754_finite sx mx ex, S754_finite _ my ey =>
      let e := Z.min ex ey in
      let X := Zpos mx * 2 ^ (ex - e) in
      let Y := Zpos my * 2 ^ (ey - e) in
      binary_normalize prec emax (cond_Zopp sx (Z.rem X Y)) e sx
  end.

(** [floor(x)] of C: the largest integral float not above [x]. *)
Definition floor (x : spec_float) : spec_float :=
  match x with
  | S754_finite s m e =>
      if 0 <=? e then x
      else binary_normalize prec emax (cond_Zopp s (Zpos m) / 2 ^ (- e)) 0 s
  | _ => x
  end.

(** The quotient of [vx // wx] on floats, for [wx] different from zero:
    [(vx - fmod(vx, wx)) / wx], lowered by one when the remainder is not
    zero and its sign differs from that of [wx], then snapped to the
    nearest integral value. *)
Definition float_floor_div (vx wx : spec_float) : spec_float :=
  let mod_ := fmod vx wx in
  let div := fdiv (fsub vx mod_) wx in
  let div :=
    if nonzero mod_ && xorb (negative wx) (negative mod_)
    then fsub div (of_Z 1)
    else div in
  if nonzero div then
    let floordiv := floor div in
    if SFltb (dyadic 1 (-1)) (fsub div floordiv)
    then fadd floordiv (of_Z 1)
    else floordiv
  else S754_zero (sign_bit (fdiv vx wx)).

(** An operand of a float operation: an integer is rounded to the
    nearest float, and is refused when that is beyond the largest one. *)
Definition as_double (a : number) : outcome spec_float :=
  match a with
  | PyFloat x => Returns x
  | PyInt z =>
      match of_Z z with
      | S754_infinity _ => Raises OverflowError
      | x => Returns x
      end
  end.

(** [a - b]. *)
Definition sub (a b : number) : outcome number :=
  match a, b with
  | PyInt x, PyInt y => Returns (PyInt (x - y))
  | _, _ =>
      x <~ as_double a ;; y <~ as_double b ;; Returns (PyFloat (fsub x y))
  end.

(** [a // b]. *)
Definition floor_div (a b : number) : outcome number :=
  match a, b with
  | PyInt x, PyInt y =>
      match floordiv x y with
      | Ok q => Returns (PyInt q)
      | Raise _ => Raises ZeroDivisionError
      end
  | _, _ =>
      vx <~ as_double a ;;
      wx <~ as_double b ;;
      if SFeqb wx (S754_zero false) then Raises ZeroDivisionError
      else Returns (PyFloat (float_floor_div vx wx))
  end.

(** [int(a)]: a float is truncated toward zero; NaN and the infinities
    are refused. *)
Definition int (a : number) : outcome Z :=
  match a with
  | PyInt z => Returns z
  | PyFloat S754_nan => Raises ValueError
  | PyFloat (S754_infinity _) => Raises OverflowError
  | PyFloat (S754_zero _) => Returns 0
  | PyFloat (S754_finite s m e) =>
      Returns (cond_Zopp s (if 0 <=? e then Zpos m * 2 ^ e
                            else Z.quot (Zpos m) (2 ^ (- e))))
  end.

Definition calculate_nodes_per_leaf
  (leaf_bandwidth node_bandwidth uplink_bandwidth : number) : outcome Z :=
  available_bandwidth <~ sub leaf_bandwidth uplink_bandwidth ;;
  q <~ floor_div available_bandwidth node_bandwidth ;;
  int q.

(** The exact value of a number, when it has one, in lowest terms. *)
Definition value (a : number) : option Q :=
  match a with
  | PyInt z => Some (inject_Z z)
  | PyFloat (S754_zero _) => Some (inject_Z 0)
  | PyFloat (S754_finite s m e) =>
      Some (if 0 <=? e then inject_Z (cond_Zopp s (Zpos m * 2 ^ e))
            else Qred (Qmake (cond_Zopp s (Zpos m)) (Z.to_pos (2 ^ (- e)))))
  | PyFloat _ => None
  end.

End PyNum.

(** ** Reference statements the code is compared with *)

(** The floor of the rational [x / y]. *)
Definition floor_ratio (x y : Z) : Z := Qfloor (inject_Z x / inject_Z y).

(** Row keys in nested iteration order: spines outermost, then leaves,
    then ratios, each in declaration order. *)
Definition nested_order (spines : list (string * SpineConfig.config))
  (leaves : list (string * LeafConfig.config)) (ratios : list (string * Z))
  : list (string * string * string) :=
  flat_map (fun s =>
    flat_map (fun l => map (fun r => (fst s, fst l, fst r)) ratios) leaves)
    spines.

Definition row_key (r : Row) : string * string * string :=
  (Spine r, Leaf r, Oversubscription r).

(** The row one pass of the innermost body builds when nothing raises,
    written without the error monad: every field as an expression of the
    spine, the leaf and the ratio. *)
Definition closed_form_row (base nbw : Z) (spine : string * SpineConfig.config)
  (leaf : string * LeafConfig.config) (ratio : string * Z) : Row :=
  let uplinks := base / snd ratio in
  {| Leaf := fst leaf;
     Spine := fst spine;
     Uplinks := uplinks;
     Workload_Ports := LeafConfig.ports (snd leaf) - uplinks;
     Oversubscription := fst ratio;
     Max_Radix :=
       (SpineConfig.line_cards (snd spine)
        * SpineConfig.ports_per_card (snd spine)) / uplinks;
     Nodes_per_Leaf :=
       (LeafConfig.bandwidth (snd leaf)
        - uplinks * SpineConfig.port_speed (snd spine)) / nbw |}.

(** The closed-form rows of all triples, in nested iteration order. *)
Definition closed_form_rows (spines : list (string * SpineConfig.config))
  (leaves : list (string * LeafConfig.config)) (ratios : list (string * Z))
  (base nbw : Z) : list Row :=
  flat_map (fun s =>
    flat_map (fun l => map (closed_form_row base nbw s l) ratios) leaves)
    spines.

(** A ratio the innermost body gets through: its divisor is not zero,
    and neither is the uplink count it yields. *)
Definition usable_ratio (base : Z) (ratio : string * Z) : Prop :=
  snd ratio <> 0 /\ base / snd ratio <> 0.

(** * Properties *)

(** ** Floor division *)

Lemma floordiv_zero (a : Z) : floordiv a 0 = Raise ZeroDivisionError.
Proof. reflexivity. Qed.

Lemma floordiv_nonzero (a b : Z) : b <> 0 -> floordiv a b = Ok (a / b).
Proof.
  intros Hb. unfold floordiv.
  destruct (Z.eqb_spec b 0) as [|_]; [contradiction|].
  pose proof (Z.quot_rem' a b) as Hqr.
  pose proof (Z.rem_bound_abs a b Hb) as Habs.
  destruct (Z.eqb_spec (Z.rem a b) 0) as [Hr0|Hr0]; cbn [negb andb].
  - f_equal. apply Z.div_unique with (r := 0); lia.
  - destruct (Z.ltb_spec (Z.rem a b) 0), (Z.ltb_spec b 0);
      cbn [Bool.eqb negb]; f_equal.
    + apply Z.div_unique with (r := Z.rem a b); lia.
    + apply Z.div_unique with (r := Z.rem a b + b); lia.
    + apply Z.div_unique with (r := Z.rem a b + b); lia.
    + apply Z.div_unique with (r := Z.rem a b); lia.
Qed.

Lemma floor_ratio_div (x y : Z) : 0 < y -> floor_ratio x y = x / y.
Proof.
  intros Hy. unfold floor_ratio.
  destruct y as [|p|p]; try lia.
  unfold Qfloor, Qdiv, Qmult, Qinv, inject_Z; cbn.
  now rewrite Z.mul_1_r.
Qed.

Lemma div_floor_bounds (x y : Z) : 0 < y -> y * (x / y) <= x < y * (x / y + 1).
Proof.
  intros Hy.
  pose proof (Z.div_mod x y ltac:(lia)); pose proof (Z.mod_pos_bound x y Hy).
  nia.
Qed.

(** ** The two formulas *)

Lemma calculate_radix_nonzero (a b : Z) :
  b <> 0 -> calculate_radix a b = Ok (a / b).
Proof. apply floordiv_nonzero. Qed.

Lemma calculate_nodes_per_leaf_div (L N U : Z) :
  N <> 0 -> calculate_nodes_per_leaf L N U = Ok ((L - U) / N).
Proof.
  intros HN. unfold calculate_nodes_per_leaf.
  now rewrite floordiv_nonzero.
Qed.

(** C3: for positive integers [a] and [b], [calculate_radix a b] is the
    floor division of [a] by [b], that is the one integer [q] with
    [b * q <= a < b * (q + 1)], and [calculate_radix a 0] raises
    [ZeroDivisionError] instead of returning a value. *)
Theorem calculate_radix_floor_or_raise (a b : Z) (Ha : 0 < a) (Hb : 0 < b) :
  calculate_radix a b = Ok (a / b)
  /\ b * (a / b) <= a < b * (a / b + 1)
  /\ calculate_radix a 0 = Raise ZeroDivisionError.
Proof.
  split; [apply calculate_radix_nonzero; lia|].
  split; [now apply div_floor_bounds|].
  apply floordiv_zero.
Qed.

Lemma calculate_radix_floor_or_raise_witness :
  calculate_radix 144 8 = Ok (144 / 8)
  /\ 8 * (144 / 8) <= 144 < 8 * (144 / 8 + 1)
  /\ calculate_radix 144 0 = Raise ZeroDivisionError.
Proof. apply (calculate_radix_floor_or_raise 144 8); lia. Defined.

Lemma calculate_nodes_per_leaf_on_integers (L N U : Z) :
  PyNum.calculate_nodes_per_leaf (PyNum.PyInt L) (PyNum.PyInt N) (PyNum.PyInt U)
  = match calculate_nodes_per_leaf L N U with
    | Ok q => PyNum.Returns q
    | Raise _ => PyNum.Raises PyNum.ZeroDivisionError
    end.
Proof.
  unfold PyNum.calculate_nodes_per_leaf, calculate_nodes_per_leaf.
  cbn [PyNum.sub PyNum.then_ PyNum.floor_div].
  destruct (floordiv (L - U) N) as [q|e]; reflexivity.
Qed.

(** C4, as the specification words it: for all numbers with [U <= L] and
    [0 < N] the call returns the floor of [(L - U) / N].  With the floats
    1e16, 1.0 and 1.0 for [L], [N] and [U] the hypotheses hold and the
    floor is 9999999999999999, but the subtraction rounds and the call
    returns 10000000000000000; with an infinite [L], 200 and 0 it raises
    [ValueError]. *)
Lemma calculate_nodes_per_leaf_float_counterexample :
  PyNum.value (PyNum.PyFloat (PyNum.of_Z (10 ^ 16))) = Some (inject_Z (10 ^ 16))
  /\ PyNum.value (PyNum.PyFloat (PyNum.of_Z 1)) = Some (inject_Z 1)
  /\ (inject_Z 1 <= inject_Z (10 ^ 16))%Q
  /\ (0 < inject_Z 1)%Q
  /\ Qfloor ((inject_Z (10 ^ 16) - inject_Z 1) / inject_Z 1)
     = 9999999999999999
  /\ PyNum.calculate_nodes_per_leaf (PyNum.PyFloat (PyNum.of_Z (10 ^ 16)))
       (PyNum.PyFloat (PyNum.of_Z 1)) (PyNum.PyFloat (PyNum.of_Z 1))
     = PyNum.Returns 10000000000000000
  /\ PyNum.calculate_nodes_per_leaf (PyNum.PyFloat (S754_infinity false))
       (PyNum.PyInt 200) (PyNum.PyInt 0)
     = PyNum.Raises PyNum.ValueError.
Proof.
  split; [vm_compute; reflexivity|].
  split; [vm_compute; reflexivity|].
  split; [vm_compute; discriminate|].
  split; [reflexivity|].
  split; [vm_compute; reflexivity|].
  split; vm_compute; reflexivity.
Qed.

(** C4, amended: for all integers with [U <= L] and [0 < N] the call,
    which then stays within integer arithmetic, returns the floor of the
    rational [(L - U) / N]; for 25600, 200 and 800 it returns 124. *)
Theorem calculate_nodes_per_leaf_floor (L N U : Z) (HLU : U <= L) (HN : 0 < N) :
  calculate_nodes_per_leaf L N U = Ok (floor_ratio (L - U) N)
  /\ PyNum.calculate_nodes_per_leaf (PyNum.PyInt L) (PyNum.PyInt N)
       (PyNum.PyInt U)
     = PyNum.Returns (floor_ratio (L - U) N)
  /\ calculate_nodes_per_leaf 25600 200 800 = Ok 124.
Proof.
  assert (H : calculate_nodes_per_leaf L N U = Ok (floor_ratio (L - U) N)).
  { rewrite floor_ratio_div by assumption.
    apply calculate_nodes_per_leaf_div; lia. }
  split; [exact H|]. split; [|reflexivity].
  now rewrite calculate_nodes_per_leaf_on_integers, H.
Qed.

Lemma calculate_nodes_per_leaf_floor_witness :
  calculate_nodes_per_leaf 51200 200 6400 = Ok (floor_ratio (51200 - 6400) 200)
  /\ PyNum.calculate_nodes_per_leaf (PyNum.PyInt 51200) (PyNum.PyInt 200)
       (PyNum.PyInt 6400)
     = PyNum.Returns (floor_ratio (51200 - 6400) 200)
  /\ calculate_nodes_per_leaf 25600 200 800 = Ok 124.
Proof. apply (calculate_nodes_per_leaf_floor 51200 200 6400); lia. Defined.

(** C5, as the specification words it: when the uplink bandwidth exceeds
    the leaf bandwidth the call raises or returns the sentinel 0.  The
    code does neither at 25600, 200, 28800: it returns -16. *)
Lemma calculate_nodes_per_leaf_negative_counterexample :
  calculate_nodes_per_leaf 25600 200 28800 = Ok (-16)
  /\ ~ ((exists e, calculate_nodes_per_leaf 25600 200 28800 = Raise e)
        \/ calculate_nodes_per_leaf 25600 200 28800 = Ok 0).
Proof.
  split; [reflexivity|].
  intros [[e He]|H0]; [discriminate He|discriminate H0].
Qed.

(** C5, amended: when [L < U] and [0 < N], [calculate_nodes_per_leaf L N U]
    raises nothing and returns no sentinel; it returns the negative
    integer [q] with [N * q <= L - U < N * (q + 1)]. *)
Theorem calculate_nodes_per_leaf_negative (L N U : Z) (HLU : L < U) (HN : 0 < N) :
  exists q, calculate_nodes_per_leaf L N U = Ok q
            /\ q < 0
            /\ N * q <= L - U < N * (q + 1).
Proof.
  exists ((L - U) / N).
  split; [apply calculate_nodes_per_leaf_div; lia|].
  split; [apply Z.div_lt_upper_bound; lia|].
  now apply div_floor_bounds.
Qed.

Lemma calculate_nodes_per_leaf_negative_witness :
  exists q, calculate_nodes_per_leaf 25600 200 28800 = Ok q
            /\ q < 0
            /\ 200 * q <= 25600 - 28800 < 200 * (q + 1).
Proof. apply (calculate_nodes_per_leaf_negative 25600 200 28800); lia. Defined.



(** C10: [calculate_radix] is antitone in its second argument: for
    [0 <= a] and [0 < b1 <= b2] both calls return, and the one with the
    larger divisor returns the smaller or equal value. *)
Theorem calculate_radix_antitone (a b1 b2 : Z)
  (Ha : 0 <= a) (Hb1 : 0 < b1) (Hb : b1 <= b2) :
  exists q1 q2, calculate_radix a b1 = Ok q1
                /\ calculate_radix a b2 = Ok q2
                /\ q2 <= q1.
Proof.
  exists (a / b1), (a / b2).
  split; [apply calculate_radix_nonzero; lia|].
  split; [apply calculate_radix_nonzero; lia|].
  apply Z.div_le_compat_l; lia.
Qed.

Lemma calculate_radix_antitone_witness :
  exists q1 q2, calculate_radix 144 2 = Ok q1
                /\ calculate_radix 144 8 = Ok q2
                /\ q2 <= q1.
Proof. apply (calculate_radix_antitone 144 2 8); lia. Defined.

(** ** Loops *)

Lemma bind_ok {A B : Type} (c : result A) (k : A -> result B) (b : B) :
  bind c k = Ok b -> exists a, c = Ok a /\ k a = Ok b.
Proof. destruct c as [a|e]; cbn; [eauto|discriminate]. Qed.

(** A property of the loop state kept by every completed pass is kept by
    a completed loop. *)
Lemma for_each_invariant {A S : Type} (I : S -> Prop) (xs : list A)
  (body : A -> S -> result S) :
  (forall x s s', In x xs -> I s -> body x s = Ok s' -> I s') ->
  forall s s', I s -> for_each xs body s = Ok s' -> I s'.
Proof.
  induction xs as [|x xs IH]; cbn [for_each]; intros Hbody s s' Hs Hrun.
  - now injection Hrun as <-.
  - apply bind_ok in Hrun as (s1 & H1 & Hrest).
    apply IH with (s := s1); auto.
    + intros y t t' Hy. apply Hbody. now right.
    + apply Hbody with (x := x) (s := s); auto. now left.
Qed.

(** When each completed pass appends [keys x] to the projection [out] of
    the state, a completed loop appends them pass after pass. *)
Lemma for_each_trace {A S K : Type} (out : S -> list K) (keys : A -> list K)
  (xs : list A) (body : A -> S -> result S) :
  (forall x s s', In x xs -> body x s = Ok s' -> out s' = out s ++ keys x) ->
  forall s s', for_each xs body s = Ok s' ->
               out s' = out s ++ flat_map keys xs.
Proof.
  induction xs as [|x xs IH]; cbn [for_each flat_map]; intros Hbody s s' Hrun.
  - injection Hrun as <-. now rewrite app_nil_r.
  - apply bind_ok in Hrun as (s1 & H1 & Hrest).
    rewrite (IH (fun y t t' Hy => Hbody y t t' (or_intror Hy)) s1 s' Hrest).
    rewrite (Hbody x s s1 (or_introl eq_refl) H1).
    now rewrite app_assoc.
Qed.

Lemma flat_map_single {A B : Type} (f : A -> B) (xs : list A) :
  flat_map (fun x => [f x]) xs = map f xs.
Proof. induction xs as [|x xs IH]; cbn; [reflexivity|now rewrite IH]. Qed.

(** ** One row *)

Lemma make_row_ok (base nbw : Z) (spine : string * SpineConfig.config)
  (spine_ports : Z) (leaf : string * LeafConfig.config) (ratio : string * Z)
  (row : Row) :
  make_row base nbw spine spine_ports leaf ratio = Ok row ->
  exists uplinks max_radix nodes,
    floordiv base (snd ratio) = Ok uplinks
    /\ calculate_radix spine_ports uplinks = Ok max_radix
    /\ calculate_nodes_per_leaf (LeafConfig.bandwidth (snd leaf)) nbw
         (uplinks * SpineConfig.port_speed (snd spine)) = Ok nodes
    /\ row = {| Leaf := fst leaf;
                Spine := fst spine;
                Uplinks := uplinks;
                Workload_Ports := LeafConfig.ports (snd leaf) - uplinks;
                Oversubscription := fst ratio;
                Max_Radix := max_radix;
                Nodes_per_Leaf := nodes |}.
Proof.
  destruct spine as [spine_model spine_config], leaf as [leaf_model leaf_config],
    ratio as [oversubscription uplink_divisor].
  unfold make_row, uplinks_of, uplink_bandwidth_of; cbn [fst snd]. intros H.
  apply bind_ok in H as (u & Hu & H).
  apply bind_ok in H as (mr & Hmr & H).
  apply bind_ok in H as (n & Hn & H).
  injection H as <-. now exists u, mr, n.
Qed.

Lemma ratio_body_ok (base nbw : Z) (spine : string * SpineConfig.config)
  (spine_ports : Z) (leaf : string * LeafConfig.config) (ratio : string * Z)
  (df df' : list Row) :
  ratio_body base nbw spine spine_ports leaf ratio df = Ok df' ->
  exists row, make_row base nbw spine spine_ports leaf ratio = Ok row
              /\ df' = df ++ [row].
Proof.
  unfold ratio_body. intros H.
  apply bind_ok in H as (row & Hrow & H).
  injection H as <-. now exists row.
Qed.

(** ** Order of the rows *)

(** A completed enumeration appends to the frame one row per triple, in
    nested iteration order, whatever the catalogs are. *)
Lemma enumerate_nested_order (spines : list (string * SpineConfig.config))
  (leaves : list (string * LeafConfig.config)) (ratios : list (string * Z))
  (base nbw : Z) (df df' : list Row) :
  enumerate spines leaves ratios base nbw df = Ok df' ->
  map row_key df' = map row_key df ++ nested_order spines leaves ratios.
Proof.
  unfold enumerate, nested_order.
  apply (for_each_trace (map row_key)). intros spine s s' _.
  unfold spine_body.
  apply (for_each_trace (map row_key)). intros leaf t t' _.
  unfold leaf_body.
  rewrite <- (flat_map_single (fun r : string * Z => (fst spine, fst leaf, fst r))).
  apply (for_each_trace (map row_key)). intros ratio v v' _ Hv.
  apply ratio_body_ok in Hv as (row & Hrow & ->).
  apply make_row_ok in Hrow as (u & mr & n & _ & _ & _ & ->).
  now rewrite map_app.
Qed.

Lemma enumerate_length (spines : list (string * SpineConfig.config))
  (leaves : list (string * LeafConfig.config)) (ratios : list (string * Z))
  (base nbw : Z) (df' : list Row) :
  enumerate spines leaves ratios base nbw [] = Ok df' ->
  List.length df' =
  (List.length spines * (List.length leaves * List.length ratios))%nat.
Proof.
  intros H. apply enumerate_nested_order in H. cbn [map app] in H.
  rewrite <- (length_map row_key), H. clear H. unfold nested_order.
  induction spines as [|s ss IHs]; cbn [flat_map List.length]; [reflexivity|].
  rewrite length_app, IHs. cbn [Nat.mul]. f_equal. clear IHs.
  induction leaves as [|l ls IHl]; cbn [flat_map List.length]; [reflexivity|].
  rewrite length_app, length_map, IHl. reflexivity.
Qed.

(** ** The run on the catalogs of [main] *)

Lemma main_rows_completes : exists rows, main_rows = Ok rows.
Proof. eexists. vm_compute. reflexivity. Qed.

(** C1: on the catalogs of [main] (4 spines, 2 leaves, 3 ratios) the
    enumeration yields exactly 24 rows, and their (spine, leaf, ratio)
    keys are the nested iteration order: spines in declaration order
    outermost, then leaves, then the ratios "1:1", "2:1", "4:1"; nothing
    is merged or reordered. *)
Theorem main_rows_count_and_order :
  exists rows,
    main_rows = Ok rows
    /\ map fst spine_configs = ["7804"; "7808"; "7812"; "7816"]
    /\ map fst leaf_configs = ["7060X5"; "7060X6"]
    /\ map fst oversubscriptions = ["1:1"; "2:1"; "4:1"]
    /\ List.length rows = 24%nat
    /\ map row_key rows
       = nested_order spine_configs leaf_configs oversubscriptions.
Proof.
  destruct main_rows_completes as [rows Hrows]. exists rows.
  split; [exact Hrows|].
  do 3 (split; [reflexivity|]).
  split.
  - apply enumerate_length in Hrows. exact Hrows.
  - apply enumerate_nested_order in Hrows. exact Hrows.
Qed.

(** C2: for spine "7804" (4 line cards of 36 ports at 800 Gbps), leaf
    "7060X5" (64 ports, 25600 Gbps) and ratio "1:1" (divisor 1, base
    uplink count 8, node bandwidth 200) the loop body computes 8
    uplinks, 144 spine ports and an uplink bandwidth of 6400, and emits
    the row with Uplinks 8, Max Radix 18, Workload Ports 56 and Nodes per
    Leaf 96; it is the first row of the run. *)
Theorem main_first_row :
  let spine := ("7804", SpineConfig.Build 4 36 800) in
  let leaf := ("7060X5", LeafConfig.Build 64 400 25600) in
  let ratio := ("1:1", 1) in
  let row := {| Leaf := "7060X5"; Spine := "7804"; Uplinks := 8;
                Workload_Ports := 56; Oversubscription := "1:1";
                Max_Radix := 18; Nodes_per_Leaf := 96 |} in
  In spine spine_configs /\ In leaf leaf_configs /\ In ratio oversubscriptions
  /\ uplinks_of 8 (snd ratio) = Ok 8
  /\ spine_ports_of (snd spine) = 144
  /\ uplink_bandwidth_of (snd spine) 8 = 6400
  /\ make_row 8 node_bandwidth spine 144 leaf ratio = Ok row
  /\ exists rest, main_rows = Ok (row :: rest).
Proof.
  cbv zeta. repeat (split; [first [now left | reflexivity]|]).
  eexists. vm_compute. reflexivity.
Qed.

(** C9: for each ratio of [main] the uplink count [8 // divisor] is one
    of 8, 4, 2, hence positive, so [calculate_radix] returns for every
    spine port count; the run completes with every row carrying such an
    uplink count, and [main] ends without an exception. *)
Theorem main_never_divides_by_zero :
  Forall (fun ratio =>
            exists uplinks,
              uplinks_of 8 (snd ratio) = Ok uplinks
              /\ In uplinks [8; 4; 2] /\ 0 < uplinks
              /\ forall spine_ports,
                   calculate_radix spine_ports uplinks
                   = Ok (spine_ports / uplinks))
         oversubscriptions
  /\ exists rows,
       main_rows = Ok rows
       /\ Forall (fun row => In (Uplinks row) [8; 4; 2] /\ 0 < Uplinks row) rows
       /\ forall tabulate frame_text stdout,
            snd (main tabulate frame_text stdout) = Ok rows.
Proof.
  split.
  - unfold oversubscriptions.
    repeat (constructor;
            [eexists; split; [vm_compute; reflexivity|];
             split; [cbn; tauto|]; split; [lia|];
             intros sp; apply calculate_radix_nonzero; lia|]).
    constructor.
  - eexists. split; [vm_compute; reflexivity|]. split.
    + repeat (constructor; [cbn [Uplinks]; split; [cbn; tauto|lia]|]).
      constructor.
    + intros tabulate frame_text stdout. reflexivity.
Qed.

(** ** Row invariants *)

Lemma floordiv_le_base (base d : Z) :
  0 <= base -> 1 <= d ->
  exists u, floordiv base d = Ok u /\ 0 <= u <= base.
Proof.
  intros Hb Hd. exists (base / d).
  split; [apply floordiv_nonzero; lia|].
  split; [apply Z.div_pos; lia|].
  apply Z.div_le_upper_bound; nia.
Qed.

(** Every row appended by a completed enumeration comes from one pass of
    the innermost body, on a leaf and a ratio of the catalogs. *)
Lemma enumerate_rows_made (spines : list (string * SpineConfig.config))
  (leaves : list (string * LeafConfig.config)) (ratios : list (string * Z))
  (base nbw : Z) (P : Row -> Prop) :
  (forall spine spine_ports leaf ratio row,
      In leaf leaves -> In ratio ratios ->
      make_row base nbw spine spine_ports leaf ratio = Ok row -> P row) ->
  forall df df', Forall P df ->
                 enumerate spines leaves ratios base nbw df = Ok df' ->
                 Forall P df'.
Proof.
  intros Hmake. unfold enumerate.
  apply for_each_invariant. intros spine s s' _.
  unfold spine_body.
  apply for_each_invariant. intros leaf t t' Hleaf.
  unfold leaf_body.
  apply for_each_invariant. intros ratio v v' Hratio Hv Hbody.
  apply ratio_body_ok in Hbody as (row & Hrow & ->).
  apply Forall_app. split; [assumption|].
  constructor; [|constructor]. eapply Hmake; eassumption.
Qed.

(** C6: a row emitted by the enumerator with base uplink count 8 and
    ratios of divisor at least 1 has at most 8 uplinks, and its workload
    ports are the port count of its leaf minus its uplinks; on the
    catalogs of [main] the workload ports of every row are non-negative. *)
Theorem enumerate_row_invariants
  (spines : list (string * SpineConfig.config))
  (leaves : list (string * LeafConfig.config)) (ratios : list (string * Z))
  (nbw : Z) (rows : list Row)
  (Hdiv : Forall (fun ratio => 1 <= snd ratio) ratios)
  (Hrun : enumerate spines leaves ratios 8 nbw [] = Ok rows) :
  Forall (fun row =>
            Uplinks row <= 8
            /\ exists leaf, In leaf leaves /\ Leaf row = fst leaf
                 /\ Workload_Ports row
                    = LeafConfig.ports (snd leaf) - Uplinks row) rows
  /\ exists rows0,
       main_rows = Ok rows0
       /\ Forall (fun row =>
                    exists leaf, In leaf leaf_configs /\ Leaf row = fst leaf
                      /\ Workload_Ports row
                         = LeafConfig.ports (snd leaf) - Uplinks row
                      /\ 0 <= Workload_Ports row) rows0.
Proof.
  split.
  - revert Hrun. apply enumerate_rows_made; [|constructor].
    intros spine sp leaf ratio row Hleaf Hratio Hrow.
    apply make_row_ok in Hrow as (u & mr & n & Hu & _ & _ & ->).
    cbn [Uplinks Leaf Workload_Ports].
    rewrite Forall_forall in Hdiv. specialize (Hdiv ratio Hratio).
    destruct (floordiv_le_base 8 (snd ratio)) as (u' & Hu' & Hle); [lia..|].
    rewrite Hu in Hu'. injection Hu' as <-.
    split; [lia|]. exists leaf. auto.
  - destruct main_rows_completes as [rows0 Hrows0]. exists rows0.
    split; [assumption|].
    revert Hrows0. apply enumerate_rows_made; [|constructor].
    intros spine sp leaf ratio row Hleaf Hratio Hrow.
    apply make_row_ok in Hrow as (u & mr & n & Hu & _ & _ & ->).
    cbn [Uplinks Leaf Workload_Ports].
    exists leaf. repeat (split; [solve [auto]|]).
    assert (Hd : 1 <= snd ratio).
    { cbn in Hratio. destruct Hratio as [<-|[<-|[<-|[]]]]; cbn; lia. }
    destruct (floordiv_le_base 8 (snd ratio)) as (u' & Hu' & Hle); [lia..|].
    rewrite Hu in Hu'. injection Hu' as <-.
    cbn in Hleaf. destruct Hleaf as [<-|[<-|[]]]; cbn [LeafConfig.ports snd]; lia.
Qed.

Lemma enumerate_row_invariants_witness :
  exists rows,
    enumerate spine_configs leaf_configs oversubscriptions 8 node_bandwidth []
    = Ok rows
    /\ Forall (fun row =>
                 Uplinks row <= 8
                 /\ exists leaf, In leaf leaf_configs /\ Leaf row = fst leaf
                      /\ Workload_Ports row
                         = LeafConfig.ports (snd leaf) - Uplinks row) rows.
Proof.
  eexists. split; [vm_compute; reflexivity|].
  refine (proj1 (enumerate_row_invariants spine_configs leaf_configs
                   oversubscriptions node_bandwidth _ _ _)).
  - unfold oversubscriptions. repeat (constructor; [cbn; lia|]). constructor.
  - vm_compute. reflexivity.
Defined.

(** * Further properties of the formulas *)

Lemma floordiv_ok (a b q : Z) : floordiv a b = Ok q -> b <> 0 /\ q = a / b.
Proof.
  intros H. destruct (Z.eq_dec b 0) as [->|Hb].
  - rewrite floordiv_zero in H. discriminate.
  - rewrite floordiv_nonzero in H by assumption. injection H as <-. auto.
Qed.

Lemma div_greatest (a b k : Z) : 0 < b -> (k * b <= a <-> k <= a / b).
Proof.
  intros Hb. split; intros H.
  - apply Z.div_le_lower_bound; lia.
  - pose proof (Z.mul_div_le a b Hb). nia.
Qed.

(** X1: for a positive uplink count the radix returned is the greatest
    number of leaves whose uplinks fit in the spine ports. *)
Theorem calculate_radix_greatest (spine_ports uplinks : Z) (Hu : 0 < uplinks) :
  exists radix,
    calculate_radix spine_ports uplinks = Ok radix
    /\ forall k, k * uplinks <= spine_ports <-> k <= radix.
Proof.
  exists (spine_ports / uplinks).
  split; [apply calculate_radix_nonzero; lia|].
  intros k. now apply div_greatest.
Qed.

Lemma calculate_radix_greatest_witness :
  exists radix,
    calculate_radix 144 8 = Ok radix
    /\ forall k, k * 8 <= 144 <-> k <= radix.
Proof. apply (calculate_radix_greatest 144 8); lia. Defined.

(** X2: for a positive node bandwidth the count returned is the greatest
    number of nodes whose bandwidth, added to the uplink bandwidth, stays
    within the leaf bandwidth. *)
Theorem calculate_nodes_per_leaf_greatest (L N U : Z) (HN : 0 < N) :
  exists nodes,
    calculate_nodes_per_leaf L N U = Ok nodes
    /\ forall k, k * N + U <= L <-> k <= nodes.
Proof.
  exists ((L - U) / N).
  split; [apply calculate_nodes_per_leaf_div; lia|].
  intros k. rewrite <- (div_greatest (L - U) N k HN). lia.
Qed.

Lemma calculate_nodes_per_leaf_greatest_witness :
  exists nodes,
    calculate_nodes_per_leaf 25600 200 6400 = Ok nodes
    /\ forall k, k * 200 + 6400 <= 25600 <-> k <= nodes.
Proof. apply (calculate_nodes_per_leaf_greatest 25600 200 6400); lia. Defined.

(** X3: with the same positive uplink count, a spine with at least as many
    ports gives at least as large a radix. *)
Theorem calculate_radix_monotone_ports (ports1 ports2 uplinks : Z)
  (Hp : ports1 <= ports2) (Hu : 0 < uplinks) :
  exists r1 r2,
    calculate_radix ports1 uplinks = Ok r1
    /\ calculate_radix ports2 uplinks = Ok r2
    /\ r1 <= r2.
Proof.
  exists (ports1 / uplinks), (ports2 / uplinks).
  split; [apply calculate_radix_nonzero; lia|].
  split; [apply calculate_radix_nonzero; lia|].
  apply Z.div_le_mono; lia.
Qed.

Lemma calculate_radix_monotone_ports_witness :
  exists r1 r2,
    calculate_radix 144 8 = Ok r1
    /\ calculate_radix 288 8 = Ok r2
    /\ r1 <= r2.
Proof. apply (calculate_radix_monotone_ports 144 288 8); lia. Defined.



(** X5: [calculate_radix] raises exactly when the uplink count is zero;
    for any other count, of either sign, it returns the quotient whose
    remainder has the sign of the divisor and is smaller in magnitude. *)
Theorem calculate_radix_any_divisor (a b : Z) :
  (calculate_radix a b = Raise ZeroDivisionError <-> b = 0)
  /\ forall q, calculate_radix a b = Ok q ->
               (0 < b /\ 0 <= a - b * q < b) \/ (b < 0 /\ b < a - b * q <= 0).
Proof.
  unfold calculate_radix. split; [split|].
  - intros H. destruct (Z.eq_dec b 0) as [|Hb]; [assumption|].
    rewrite floordiv_nonzero in H by assumption. discriminate.
  - intros ->. apply floordiv_zero.
  - intros q Hq. apply floordiv_ok in Hq as [Hb ->].
    pose proof (Z.div_mod a b Hb) as Hdm.
    destruct (Z.lt_total 0 b) as [Hpos|[Hz|Hneg]]; [left|lia|right].
    + pose proof (Z.mod_pos_bound a b Hpos). lia.
    + pose proof (Z.mod_neg_bound a b Hneg). lia.
Qed.

Lemma calculate_radix_any_divisor_witness :
  (0 < -2 /\ 0 <= 7 - -2 * -4 < -2) \/ (-2 < 0 /\ -2 < 7 - -2 * -4 <= 0).
Proof.
  apply (proj2 (calculate_radix_any_divisor 7 (-2)) (-4)). reflexivity.
Defined.


(** * Further properties of the enumeration *)

(** ** When a loop completes *)

(** When whether a pass completes depends on the item only, the loop
    completes exactly when every pass does. *)
Lemma for_each_completes {A S : Type} (good : A -> Prop) (xs : list A)
  (body : A -> S -> result S) :
  (forall x s, In x xs -> ((exists s', body x s = Ok s') <-> good x)) ->
  forall s, (exists s', for_each xs body s = Ok s') <-> Forall good xs.
Proof.
  induction xs as [|x xs IH]; cbn [for_each]; intros Hbody s.
  - split; [constructor|eauto].
  - assert (Hxs : forall y t, In y xs ->
                    ((exists t', body y t = Ok t') <-> good y)).
    { intros y t Hy. apply Hbody. now right. }
    split.
    + intros [s' Hrun]. apply bind_ok in Hrun as (s1 & H1 & Hrest).
      constructor.
      * apply (Hbody x s (or_introl eq_refl)). eauto.
      * apply (IH Hxs s1). eauto.
    + intros Hall. inversion Hall as [|? ? Hx Hrest]; subst.
      apply (Hbody x s (or_introl eq_refl)) in Hx as [s1 H1].
      rewrite H1. cbn [bind]. now apply (IH Hxs s1).
Qed.

Lemma Forall_same {A : Type} (P : Prop) (xs : list A) :
  Forall (fun _ => P) xs <-> xs = [] \/ P.
Proof.
  split.
  - intros H. destruct H; [now left|now right].
  - intros [->|HP]; [constructor|].
    induction xs; constructor; assumption.
Qed.

Lemma calculate_nodes_per_leaf_ok (L N U n : Z) :
  calculate_nodes_per_leaf L N U = Ok n -> N <> 0 /\ n = (L - U) / N.
Proof.
  unfold calculate_nodes_per_leaf. intros H.
  apply bind_ok in H as (q & Hq & H). injection H as <-.
  now apply floordiv_ok in Hq.
Qed.

Lemma make_row_completes (base nbw : Z) (spine : string * SpineConfig.config)
  (spine_ports : Z) (leaf : string * LeafConfig.config) (ratio : string * Z) :
  (exists row, make_row base nbw spine spine_ports leaf ratio = Ok row)
  <-> usable_ratio base ratio /\ nbw <> 0.
Proof.
  unfold usable_ratio. split.
  - intros [row Hrow].
    apply make_row_ok in Hrow as (u & mr & n & Hu & Hmr & Hn & _).
    apply floordiv_ok in Hu as [Hd ->].
    apply floordiv_ok in Hmr as [Hu _].
    apply calculate_nodes_per_leaf_ok in Hn as [Hn _]. auto.
  - intros [[Hd Hu] Hn].
    destruct spine as [spine_model spine_config],
      leaf as [leaf_model leaf_config], ratio as [oversubscription d].
    cbn [snd] in Hd, Hu.
    unfold make_row, uplinks_of.
    rewrite (floordiv_nonzero base d Hd). cbn [bind].
    rewrite (calculate_radix_nonzero spine_ports _ Hu). cbn [bind].
    rewrite calculate_nodes_per_leaf_div by assumption. cbn [bind]. eauto.
Qed.

Lemma enumerate_completes (spines : list (string * SpineConfig.config))
  (leaves : list (string * LeafConfig.config)) (ratios : list (string * Z))
  (base nbw : Z) (df : list Row) :
  (exists df', enumerate spines leaves ratios base nbw df = Ok df')
  <-> spines = [] \/ leaves = []
      \/ Forall (fun ratio => usable_ratio base ratio /\ nbw <> 0) ratios.
Proof.
  rewrite <- Forall_same with (xs := leaves).
  rewrite <- Forall_same with (xs := spines).
  unfold enumerate. apply for_each_completes. intros spine s _.
  unfold spine_body. apply for_each_completes. intros leaf t _.
  unfold leaf_body. apply for_each_completes. intros ratio v _.
  rewrite <- (make_row_completes base nbw spine
                (spine_ports_of (snd spine)) leaf ratio).
  unfold ratio_body. split.
  - intros [v' Hv]. apply bind_ok in Hv as (row & Hrow & _). eauto.
  - intros [row Hrow]. rewrite Hrow. cbn [bind]. eauto.
Qed.

(** X7: the enumeration completes exactly when a catalog is empty or,
    otherwise, when the node bandwidth is not zero and every ratio has a
    divisor that is not zero and yields an uplink count that is not
    zero; in every other case it raises [ZeroDivisionError]. *)
Theorem enumerate_completes_iff (spines : list (string * SpineConfig.config))
  (leaves : list (string * LeafConfig.config)) (ratios : list (string * Z))
  (base nbw : Z) (df : list Row) :
  ((exists df', enumerate spines leaves ratios base nbw df = Ok df')
   <-> spines = [] \/ leaves = [] \/ ratios = []
       \/ (nbw <> 0 /\ Forall (usable_ratio base) ratios))
  /\ ((exists df', enumerate spines leaves ratios base nbw df = Ok df')
      \/ enumerate spines leaves ratios base nbw df = Raise ZeroDivisionError).
Proof.
  split.
  - rewrite enumerate_completes. split.
    + intros [H|[H|H]]; [tauto|tauto|].
      destruct ratios as [|r rs]; [tauto|]. do 3 right.
      split; [now inversion H|].
      apply Forall_impl with (2 := H). tauto.
    + intros [H|[H|[->|[Hn H]]]]; [tauto|tauto|do 2 right; constructor|].
      do 2 right. apply Forall_impl with (2 := H). tauto.
  - destruct (enumerate spines leaves ratios base nbw df) as [df'|[]]; eauto.
Qed.

(** ** What a completed enumeration holds *)

Lemma make_row_closed_form (base nbw : Z) (spine : string * SpineConfig.config)
  (leaf : string * LeafConfig.config) (ratio : string * Z) (row : Row) :
  make_row base nbw spine (spine_ports_of (snd spine)) leaf ratio = Ok row ->
  row = closed_form_row base nbw spine leaf ratio.
Proof.
  intros Hrow.
  apply make_row_ok in Hrow as (u & mr & n & Hu & Hmr & Hn & ->).
  apply floordiv_ok in Hu as [_ ->].
  apply floordiv_ok in Hmr as [_ ->].
  apply calculate_nodes_per_leaf_ok in Hn as [_ ->].
  reflexivity.
Qed.

Lemma enumerate_appends (spines : list (string * SpineConfig.config))
  (leaves : list (string * LeafConfig.config)) (ratios : list (string * Z))
  (base nbw : Z) (df df' : list Row) :
  enumerate spines leaves ratios base nbw df = Ok df' ->
  df' = df ++ closed_form_rows spines leaves ratios base nbw.
Proof.
  unfold enumerate, closed_form_rows.
  apply (for_each_trace (fun s : list Row => s)). intros spine s s' _.
  unfold spine_body.
  apply (for_each_trace (fun s : list Row => s)). intros leaf t t' _.
  unfold leaf_body.
  rewrite <- (flat_map_single (closed_form_row base nbw spine leaf)).
  apply (for_each_trace (fun s : list Row => s)). intros ratio v v' _ Hv.
  apply ratio_body_ok in Hv as (row & Hrow & ->).
  now rewrite (make_row_closed_form _ _ _ _ _ _ Hrow).
Qed.

Lemma in_closed_form_rows (spines : list (string * SpineConfig.config))
  (leaves : list (string * LeafConfig.config)) (ratios : list (string * Z))
  (base nbw : Z) (row : Row) :
  In row (closed_form_rows spines leaves ratios base nbw) ->
  exists spine leaf ratio,
    In spine spines /\ In leaf leaves /\ In ratio ratios
    /\ row = closed_form_row base nbw spine leaf ratio.
Proof.
  unfold closed_form_rows. intros H.
  apply in_flat_map in H as (spine & Hspine & H).
  apply in_flat_map in H as (leaf & Hleaf & H).
  apply in_map_iff in H as (ratio & <- & Hratio).
  now exists spine, leaf, ratio.
Qed.

(** X8: a completed enumeration leaves the rows already in the frame as
    they are and appends, in nested iteration order, one row per triple
    whose fields are the closed-form expressions of that triple. *)
Theorem enumerate_closed_form (spines : list (string * SpineConfig.config))
  (leaves : list (string * LeafConfig.config)) (ratios : list (string * Z))
  (base nbw : Z) (df df' : list Row)
  (Hrun : enumerate spines leaves ratios base nbw df = Ok df') :
  df' = df ++ closed_form_rows spines leaves ratios base nbw
  /\ firstn (List.length df) df' = df.
Proof.
  apply enumerate_appends in Hrun as ->.
  split; [reflexivity|].
  rewrite firstn_app, Nat.sub_diag, firstn_all. cbn [firstn].
  apply app_nil_r.
Qed.

Lemma enumerate_closed_form_witness :
  exists df',
    enumerate spine_configs leaf_configs oversubscriptions 8 node_bandwidth []
    = Ok df'
    /\ df' = [] ++ closed_form_rows spine_configs leaf_configs
                     oversubscriptions 8 node_bandwidth
    /\ firstn (List.length (@nil Row)) df' = [].
Proof.
  eexists. split; [vm_compute; reflexivity|].
  apply (enumerate_closed_form spine_configs leaf_configs oversubscriptions
           8 node_bandwidth []).
  vm_compute. reflexivity.
Defined.

(** X9: with an empty spine catalog, an empty leaf catalog or no ratio
    the enumeration returns the frame unchanged and raises nothing, even
    with a zero node bandwidth. *)
Theorem enumerate_empty_catalog (spines : list (string * SpineConfig.config))
  (leaves : list (string * LeafConfig.config)) (ratios : list (string * Z))
  (base nbw : Z) (df : list Row)
  (Hempty : spines = [] \/ leaves = [] \/ ratios = []) :
  enumerate spines leaves ratios base nbw df = Ok df.
Proof.
  destruct (proj2 (enumerate_completes spines leaves ratios base nbw df))
    as [df' Hrun].
  { destruct Hempty as [ H | [ H | -> ] ]; [tauto|tauto|do 2 right; constructor]. }
  rewrite Hrun. f_equal.
  apply enumerate_appends in Hrun as ->.
  assert (Hnil : closed_form_rows spines leaves ratios base nbw = []).
  { unfold closed_form_rows. destruct Hempty as [ -> | [ -> | -> ] ].
    - reflexivity.
    - clear. induction spines as [|s ss IH]; cbn; [reflexivity|assumption].
    - clear. induction spines as [|s ss IHs]; cbn [flat_map]; [reflexivity|].
      rewrite IHs, app_nil_r. clear.
      induction leaves as [|l ls IHl]; cbn; [reflexivity|assumption]. }
  rewrite Hnil. apply app_nil_r.
Qed.

Lemma enumerate_empty_catalog_witness :
  enumerate spine_configs [] oversubscriptions 8 0 [] = Ok [].
Proof.
  apply (enumerate_empty_catalog spine_configs [] oversubscriptions 8 0 []).
  right. left. reflexivity.
Defined.

(** Every row of a completed enumeration is the closed-form row of a
    triple of the catalogs, whose ratio is usable. *)
Lemma enumerate_rows_triples (spines : list (string * SpineConfig.config))
  (leaves : list (string * LeafConfig.config)) (ratios : list (string * Z))
  (base nbw : Z) (rows : list Row) :
  enumerate spines leaves ratios base nbw [] = Ok rows ->
  forall row, In row rows ->
    exists spine leaf ratio,
      In spine spines /\ In leaf leaves /\ In ratio ratios
      /\ usable_ratio base ratio /\ nbw <> 0
      /\ row = closed_form_row base nbw spine leaf ratio.
Proof.
  intros Hrun row Hin.
  pose proof (proj1 (enumerate_completes spines leaves ratios base nbw [])
                (ex_intro _ rows Hrun)) as Hgood.
  apply enumerate_appends in Hrun. cbn [app] in Hrun. subst rows.
  apply in_closed_form_rows in Hin
    as (spine & leaf & ratio & Hs & Hl & Hr & ->).
  exists spine, leaf, ratio.
  destruct Hgood as [->|[->|Hgood]]; [destruct Hs|destruct Hl|].
  rewrite Forall_forall in Hgood. destruct (Hgood ratio Hr). auto 6.
Qed.

(** ** Aborted runs *)

(** X11: with spines and leaves in the catalogs, a ratio whose divisor is
    zero, or exceeds a non-negative base uplink count, aborts the whole
    run: [ZeroDivisionError] is raised and nothing is printed, not even
    the rows computed before. *)
Theorem report_aborts_on_bad_divisor (tabulate frame_text : list Row -> string)
  (spines : list (string * SpineConfig.config))
  (leaves : list (string * LeafConfig.config)) (ratios : list (string * Z))
  (base nbw : Z) (stdout : list string) (ratio : string * Z)
  (Hspines : spines <> []) (Hleaves : leaves <> [])
  (Hratio : In ratio ratios)
  (Hbad : snd ratio = 0 \/ 0 <= base < snd ratio) :
  report tabulate frame_text spines leaves ratios base nbw stdout
  = (stdout, Raise ZeroDivisionError).
Proof.
  unfold report.
  destruct (enumerate spines leaves ratios base nbw []) as [df'|[]] eqn:Hrun;
    [exfalso|reflexivity].
  pose proof (proj1 (enumerate_completes spines leaves ratios base nbw [])
                (ex_intro _ df' Hrun)) as [H|[H|H]]; [tauto|tauto|].
  rewrite Forall_forall in H. destruct (H ratio Hratio) as [[Hd Hu] _].
  destruct Hbad as [Hz|Hlt]; [tauto|].
  apply Hu. apply Z.div_small. lia.
Qed.

Lemma report_aborts_on_bad_divisor_witness :
  report (fun _ => "table") (fun _ => "frame") spine_configs leaf_configs
    [("1:1", 1); ("16:1", 16)] 8 node_bandwidth ["earlier"]
  = (["earlier"], Raise ZeroDivisionError).
Proof.
  apply (report_aborts_on_bad_divisor (fun _ => "table") (fun _ => "frame")
           spine_configs leaf_configs [("1:1", 1); ("16:1", 16)] 8
           node_bandwidth ["earlier"] ("16:1", 16)).
  - discriminate.
  - discriminate.
  - right. left. reflexivity.
  - right. cbn. lia.
Defined.

(** X12: with spines, leaves and ratios in the catalogs, a zero node
    bandwidth aborts the whole run: [ZeroDivisionError] is raised and
    nothing is printed. *)
Theorem report_aborts_on_zero_node_bandwidth
  (tabulate frame_text : list Row -> string)
  (spines : list (string * SpineConfig.config))
  (leaves : list (string * LeafConfig.config)) (ratios : list (string * Z))
  (base : Z) (stdout : list string)
  (Hspines : spines <> []) (Hleaves : leaves <> []) (Hratios : ratios <> []) :
  report tabulate frame_text spines leaves ratios base 0 stdout
  = (stdout, Raise ZeroDivisionError).
Proof.
  unfold report.
  destruct (enumerate spines leaves ratios base 0 []) as [df'|[]] eqn:Hrun;
    [exfalso|reflexivity].
  pose proof (proj1 (enumerate_completes spines leaves ratios base 0 [])
                (ex_intro _ df' Hrun)) as [H|[H|H]]; [tauto|tauto|].
  destruct ratios as [|r rs]; [tauto|].
  inversion H as [|? ? [_ Hn] _]. now apply Hn.
Qed.

Lemma report_aborts_on_zero_node_bandwidth_witness :
  report (fun _ => "table") (fun _ => "frame") spine_configs leaf_configs
    oversubscriptions 8 0 []
  = ([], Raise ZeroDivisionError).
Proof.
  apply (report_aborts_on_zero_node_bandwidth (fun _ => "table")
           (fun _ => "frame") spine_configs leaf_configs oversubscriptions
           8 []); discriminate.
Defined.

(** ** Capacity bounds of the rows *)

(** X13: with a non-negative base uplink count and divisors of at least
    1, every row of a completed enumeration has a positive uplink count,
    at most the base, and its radix is the greatest number of leaves the
    ports of its spine serve: [Max Radix * Uplinks] fits in the spine
    ports and one more leaf does not. *)
Theorem enumerate_radix_fits_spine
  (spines : list (string * SpineConfig.config))
  (leaves : list (string * LeafConfig.config)) (ratios : list (string * Z))
  (base nbw : Z) (rows : list Row)
  (Hbase : 0 <= base)
  (Hdiv : Forall (fun ratio => 1 <= snd ratio) ratios)
  (Hrun : enumerate spines leaves ratios base nbw [] = Ok rows) :
  Forall (fun row =>
            0 < Uplinks row <= base
            /\ exists spine,
                 In spine spines /\ Spine row = fst spine
                 /\ Max_Radix row * Uplinks row
                    <= spine_ports_of (snd spine)
                    < (Max_Radix row + 1) * Uplinks row) rows.
Proof.
  apply Forall_forall. intros row Hin.
  destruct (enumerate_rows_triples _ _ _ _ _ _ Hrun row Hin)
    as (spine & leaf & ratio & Hs & Hl & Hr & [Hd Hu] & Hn & ->).
  rewrite Forall_forall in Hdiv. specialize (Hdiv ratio Hr).
  cbn [closed_form_row Uplinks Spine Max_Radix]. unfold spine_ports_of.
  assert (Hpos : 0 < base / snd ratio <= base).
  { pose proof (Z.div_pos base (snd ratio) Hbase ltac:(lia)).
    split; [lia|]. apply Z.div_le_upper_bound; nia. }
  split; [exact Hpos|]. exists spine. do 2 (split; [auto|]).
  pose proof (div_floor_bounds
                (SpineConfig.line_cards (snd spine)
                 * SpineConfig.ports_per_card (snd spine))
                (base / snd ratio) ltac:(lia)).
  lia.
Qed.

Lemma enumerate_radix_fits_spine_witness :
  exists rows,
    main_rows = Ok rows
    /\ Forall (fun row =>
                 0 < Uplinks row <= 8
                 /\ exists spine,
                      In spine spine_configs /\ Spine row = fst spine
                      /\ Max_Radix row * Uplinks row
                         <= spine_ports_of (snd spine)
                         < (Max_Radix row + 1) * Uplinks row) rows.
Proof.
  eexists. split; [vm_compute; reflexivity|].
  apply (enumerate_radix_fits_spine spine_configs leaf_configs
           oversubscriptions 8 node_bandwidth).
  - lia.
  - unfold oversubscriptions. repeat (constructor; [cbn; lia|]). constructor.
  - vm_compute. reflexivity.
Defined.

(** X14: with a positive node bandwidth, every row of a completed
    enumeration carries the greatest node count its leaf can feed beside
    its uplinks: the nodes and the uplinks, at the port speed of the
    spine, fit in the bandwidth of the leaf, and one more node does not. *)
Theorem enumerate_nodes_fit_leaf
  (spines : list (string * SpineConfig.config))
  (leaves : list (string * LeafConfig.config)) (ratios : list (string * Z))
  (base nbw : Z) (rows : list Row)
  (Hnbw : 0 < nbw)
  (Hrun : enumerate spines leaves ratios base nbw [] = Ok rows) :
  Forall (fun row =>
            exists spine leaf,
              In spine spines /\ In leaf leaves
              /\ Spine row = fst spine /\ Leaf row = fst leaf
              /\ Nodes_per_Leaf row * nbw
                 + Uplinks row * SpineConfig.port_speed (snd spine)
                 <= LeafConfig.bandwidth (snd leaf)
                 < (Nodes_per_Leaf row + 1) * nbw
                   + Uplinks row * SpineConfig.port_speed (snd spine)) rows.
Proof.
  apply Forall_forall. intros row Hin.
  destruct (enumerate_rows_triples _ _ _ _ _ _ Hrun row Hin)
    as (spine & leaf & ratio & Hs & Hl & Hr & _ & _ & ->).
  exists spine, leaf. do 4 (split; [auto|]).
  cbn [closed_form_row Uplinks Nodes_per_Leaf].
  pose proof (div_floor_bounds
                (LeafConfig.bandwidth (snd leaf)
                 - base / snd ratio * SpineConfig.port_speed (snd spine))
                nbw Hnbw).
  lia.
Qed.

Lemma enumerate_nodes_fit_leaf_witness :
  exists rows,
    main_rows = Ok rows
    /\ Forall (fun row =>
                 exists spine leaf,
                   In spine spine_configs /\ In leaf leaf_configs
                   /\ Spine row = fst spine /\ Leaf row = fst leaf
                   /\ Nodes_per_Leaf row * node_bandwidth
                      + Uplinks row * SpineConfig.port_speed (snd spine)
                      <= LeafConfig.bandwidth (snd leaf)
                      < (Nodes_per_Leaf row + 1) * node_bandwidth
                        + Uplinks row * SpineConfig.port_speed (snd spine))
         rows.
Proof.
  eexists. split; [vm_compute; reflexivity|].
  apply (enumerate_nodes_fit_leaf spine_configs leaf_configs
           oversubscriptions 8 node_bandwidth).
  - reflexivity.
  - vm_compute. reflexivity.
Defined.

(** X15: when the spine figures are non-negative, the divisors are at
    least 1, the node bandwidth is positive and every leaf has the
    bandwidth for all the base uplinks at the port speed of every spine,
    no row of a completed enumeration carries a negative uplink count,
    radix or node count. *)
Theorem enumerate_rows_nonnegative
  (spines : list (string * SpineConfig.config))
  (leaves : list (string * LeafConfig.config)) (ratios : list (string * Z))
  (base nbw : Z) (rows : list Row)
  (Hbase : 0 <= base) (Hnbw : 0 < nbw)
  (Hdiv : Forall (fun ratio => 1 <= snd ratio) ratios)
  (Hspines : Forall (fun spine =>
                       0 <= SpineConfig.line_cards (snd spine)
                       /\ 0 <= SpineConfig.ports_per_card (snd spine)
                       /\ 0 <= SpineConfig.port_speed (snd spine)) spines)
  (Hfeed : forall spine leaf,
      In spine spines -> In leaf leaves ->
      base * SpineConfig.port_speed (snd spine)
      <= LeafConfig.bandwidth (snd leaf))
  (Hrun : enumerate spines leaves ratios base nbw [] = Ok rows) :
  Forall (fun row =>
            0 <= Uplinks row /\ 0 <= Max_Radix row /\ 0 <= Nodes_per_Leaf row)
         rows.
Proof.
  apply Forall_forall. intros row Hin.
  destruct (enumerate_rows_triples _ _ _ _ _ _ Hrun row Hin)
    as (spine & leaf & ratio & Hs & Hl & Hr & [Hd Hu] & _ & ->).
  rewrite Forall_forall in Hdiv, Hspines.
  specialize (Hdiv ratio Hr). specialize (Hfeed spine leaf Hs Hl).
  destruct (Hspines spine Hs) as (Hcards & Hports & Hspeed).
  cbn [closed_form_row Uplinks Max_Radix Nodes_per_Leaf].
  assert (Hpos : 0 < base / snd ratio <= base).
  { pose proof (Z.div_pos base (snd ratio) Hbase ltac:(lia)).
    split; [lia|]. apply Z.div_le_upper_bound; nia. }
  split; [lia|]. split; apply Z.div_pos; nia.
Qed.

Lemma enumerate_rows_nonnegative_witness :
  exists rows,
    main_rows = Ok rows
    /\ Forall (fun row =>
                 0 <= Uplinks row /\ 0 <= Max_Radix row
                 /\ 0 <= Nodes_per_Leaf row) rows.
Proof.
  eexists. split; [vm_compute; reflexivity|].
  apply (enumerate_rows_nonnegative spine_configs leaf_configs
           oversubscriptions 8 node_bandwidth).
  - lia.
  - reflexivity.
  - unfold oversubscriptions. repeat (constructor; [cbn; lia|]). constructor.
  - unfold spine_configs. repeat (constructor; [cbn; lia|]). constructor.
  - intros spine leaf Hs Hl. cbn in Hs, Hl.
    destruct Hs as [<-|[<-|[<-|[<-|[]]]]], Hl as [<-|[<-|[]]]; cbn; lia.
  - vm_compute. reflexivity.
Defined.

(** ** The run on usable catalogs *)

(** X16: when the node bandwidth is not zero and every ratio is usable,
    the run raises nothing: it returns the closed-form rows of all
    triples and prints six items after what standard output held, the
    table of all the rows first and the preview of their first five
    last. *)
Theorem report_on_usable_catalog (tabulate frame_text : list Row -> string)
  (spines : list (string * SpineConfig.config))
  (leaves : list (string * LeafConfig.config)) (ratios : list (string * Z))
  (base nbw : Z) (stdout : list string)
  (Hnbw : nbw <> 0) (Hratios : Forall (usable_ratio base) ratios) :
  let rows := closed_form_rows spines leaves ratios base nbw in
  report tabulate frame_text spines leaves ratios base nbw stdout
  = (stdout
     ++ [ tabulate rows;
          (nl ++ "Considerations:")%string;
          "  - Adjust `leaf_uplink_ports` based on your design and oversubscription requirements.";
          "  - Ensure the spine switch has enough bandwidth for the aggregated traffic.";
          (nl ++ "Radix DataFrame:")%string;
          frame_text (firstn 5 rows) ],
     Ok rows).
Proof.
  cbv zeta.
  destruct (proj2 (enumerate_completes spines leaves ratios base nbw []))
    as [df' Hrun].
  { do 2 right. apply Forall_impl with (2 := Hratios). tauto. }
  pose proof (enumerate_appends _ _ _ _ _ _ _ Hrun) as Hrows.
  cbn [app] in Hrows. subst df'.
  unfold report. rewrite Hrun. unfold print, head.
  rewrite <- !app_assoc. reflexivity.
Qed.

Lemma report_on_usable_catalog_witness :
  fst (report (fun _ => "table") (fun _ => "frame") spine_configs leaf_configs
         oversubscriptions 8 node_bandwidth [])
  = [ "table";
      (nl ++ "Considerations:")%string;
      "  - Adjust `leaf_uplink_ports` based on your design and oversubscription requirements.";
      "  - Ensure the spine switch has enough bandwidth for the aggregated traffic.";
      (nl ++ "Radix DataFrame:")%string;
      "frame" ].
Proof.
  rewrite (report_on_usable_catalog (fun _ => "table") (fun _ => "frame")
             spine_configs leaf_configs oversubscriptions 8 node_bandwidth []).
  - reflexivity.
  - discriminate.
  - unfold oversubscriptions, usable_ratio.
    repeat (constructor; [split; discriminate|]). constructor.
Defined.

(** X17: whatever the catalogs are, a completed enumeration started on
    the empty frame holds one row per (spine, leaf, ratio) triple, the
    product of the three sizes in number, keyed in nested iteration
    order; entries are neither merged nor reordered, even when two
    ratios carry the same label. *)
Theorem enumerate_count_and_order
  (spines : list (string * SpineConfig.config))
  (leaves : list (string * LeafConfig.config)) (ratios : list (string * Z))
  (base nbw : Z) (rows : list Row)
  (Hrun : enumerate spines leaves ratios base nbw [] = Ok rows) :
  List.length rows
  = (List.length spines * (List.length leaves * List.length ratios))%nat
  /\ map row_key rows = nested_order spines leaves ratios.
Proof.
  split.
  - now apply enumerate_length in Hrun.
  - now apply enumerate_nested_order in Hrun.
Qed.

Lemma enumerate_count_and_order_witness :
  exists rows,
    enumerate [("7804", SpineConfig.Build 4 36 800)]
      [("7060X5", LeafConfig.Build 64 400 25600)]
      [("2:1", 2); ("2:1", 2)] 8 200 [] = Ok rows
    /\ List.length rows = (1 * (1 * 2))%nat
    /\ map row_key rows
       = nested_order [("7804", SpineConfig.Build 4 36 800)]
           [("7060X5", LeafConfig.Build 64 400 25600)]
           [("2:1", 2); ("2:1", 2)].
Proof.
  eexists. split; [vm_compute; reflexivity|].
  apply (enumerate_count_and_order [("7804", SpineConfig.Build 4 36 800)]
           [("7060X5", LeafConfig.Build 64 400 25600)]
           [("2:1", 2); ("2:1", 2)] 8 200).
  vm_compute. reflexivity.
Defined.
